(** * common/utils.py of MahjongCopilot: a shallow embedding

    The module is embedded function by function.  Python values are
    modelled as the interpreter has them:

    - [int] is an unbounded integer ([Z]);
    - [float] is an IEEE 754 binary64 number, taken from the
      specification of floating-point arithmetic shipped with the
      prover ([spec_float] with 53 bits of precision and maximal
      exponent 1024), so that rounding, infinities and NaN are those
      of the interpreter;
    - an exception is a value of [exn] carried by [result];
    - a method that mutates [self] returns the new object together
      with its outcome, so that the object left behind by a raising
      call is part of the model;
    - readings of the clock, of the file system, of the random
      generator and of external commands are inputs of the embedded
      functions.

    Statements about floats range over every value of [spec_float],
    the binary64 numbers in canonical form among them; concrete
    instants are written [literal n d], the float nearest to [n/d]. *)

From Stdlib Require Import ZArith List Bool String Ascii Lia.
From Stdlib Require Import Floats.SpecFloat.
Import ListNotations.

Local Open Scope string_scope.
Local Open Scope list_scope.
Local Open Scope Z_scope.

(** ** Python values *)

Module Py.

(** Exceptions the embedded code can raise. *)
Inductive exn : Type :=
| OverflowError
| ZeroDivisionError
| IndexError
| CalledProcessError (returncode : Z)
| Exception (name : string).

Inductive result (A : Type) : Type :=
| Ok (a : A)
| Raise (e : exn).
Arguments Ok {A} a.
Arguments Raise {A} e.

Definition bind {A B : Type} (r : result A) (k : A -> result B) : result B :=
  match r with
  | Ok a => k a
  | Raise e => Raise e
  end.

(** binary64 *)
Definition prec : Z := 53.
Definition emax : Z := 1024.

Definition float : Type := spec_float.

Definition fsub : float -> float -> float := SFsub prec emax.
Definition fadd : float -> float -> float := SFadd prec emax.
Definition fdiv : float -> float -> float := SFdiv prec emax.

(** Comparisons of two floats; every comparison with NaN is false. *)
Definition feq (x y : float) : bool := SFeqb x y.
Definition flt (x y : float) : bool := SFltb x y.
Definition fle (x y : float) : bool := SFleb x y.
Definition fgt (x y : float) : bool := SFltb y x.
Definition fge (x y : float) : bool := SFleb y x.

(** [float(n)] for an int [n]: the nearest binary64 number, ties to
    even; an int that rounds beyond the largest finite float raises
    [OverflowError]. *)
Definition round_int (n : Z) : float := binary_normalize prec emax n 0 false.

Definition float_of_int (n : Z) : result float :=
  match round_int n with
  | S754_infinity _ => Raise OverflowError
  | x => Ok x
  end.

Definition fzero : float := S754_zero false.

(** [a / b] on floats: a zero divisor raises. *)
Definition float_truediv (a b : float) : result float :=
  if feq b fzero then Raise ZeroDivisionError else Ok (fdiv a b).

(** [n / b] for an int [n] and a float [b]: [n] is converted first. *)
Definition int_truediv_float (n : Z) (b : float) : result float :=
  bind (float_of_int n) (fun a => float_truediv a b).

(** A decimal literal [n/d] denotes the float nearest to the
    quotient, which is what dividing the two (exactly representable)
    integers yields. *)
Definition literal (n d : Z) : float := fdiv (round_int n) (round_int d).

(** A number held by a dynamically typed attribute. *)
Inductive num : Type :=
| Int (n : Z)
| Float (x : float).

(** Exact order between a float and an int, as the interpreter
    compares them (no rounding of the int). *)
Definition cmp_float_int (x : float) (n : Z) : option comparison :=
  match x with
  | S754_nan => None
  | S754_infinity s => Some (if s then Lt else Gt)
  | S754_zero _ => Some (0 ?= n)
  | S754_finite s m e =>
      let v := cond_Zopp s (Zpos m) in
      Some (if 0 <=? e then (v * 2 ^ e ?= n) else (v ?= n * 2 ^ (- e)))
  end.

(** [x > t], [x >= t] for a float [x] and a number [t]. *)
Definition fgt_num (x : float) (t : num) : bool :=
  match t with
  | Int n => match cmp_float_int x n with Some Gt => true | _ => false end
  | Float y => fgt x y
  end.

(** [v >= 0] and [v == 0] for a number [v]. *)
Definition num_ge0 (v : num) : bool :=
  match v with
  | Int n => 0 <=? n
  | Float x => fge x fzero
  end.

Definition num_eq0 (v : num) : bool :=
  match v with
  | Int n => n =? 0
  | Float x => feq x fzero
  end.

End Py.

Import Py.

(** ** class FPSCounter *)

Record FPSCounter : Type := mkFPSCounter {
  _start_time : float;
  _frame_count : Z;
  _fps : num
}.

(** [__init__]: [now] is the reading of [time.time()] during the call. *)
Definition __init__ (now : float) : FPSCounter :=
  {| _start_time := now; _frame_count := 0; _fps := Int 0 |}.

(** [frame]: [now] is the reading of [time.time()] during the call.
    The count is stored before the division is attempted, so a raising
    call leaves the incremented count behind. *)
Definition frame (self : FPSCounter) (now : float) : FPSCounter * result unit :=
  let self1 := {| _start_time := _start_time self;
                  _frame_count := _frame_count self + 1;
                  _fps := _fps self |} in
  let current_time := now in
  let elapsed_time := fsub current_time (_start_time self1) in
  if fge elapsed_time (literal 10 10) then
    match int_truediv_float (_frame_count self1) elapsed_time with
    | Ok q =>
        ({| _start_time := current_time; _frame_count := 0; _fps := Float q |},
         Ok tt)
    | Raise e => (self1, Raise e)
    end
  else (self1, Ok tt).

(** [reset] calls [__init__] on the same object. *)
Definition reset (self : FPSCounter) (now : float) : FPSCounter :=
  __init__ now.

(** The [fps] property: the object is returned untouched with the value. *)
Definition fps (self : FPSCounter) : FPSCounter * num :=
  (self, _fps self).

(** ** The operating system seen by [wait_for_file]

    The three services the function calls.  Each takes the state of
    the world and returns the next one; nothing is assumed about how
    the clock, the file system or a sleep behave. *)

Record OS : Type := mkOS {
  World : Type;
  os_time : World -> float * World;             (* time.time() *)
  os_exists : string -> World -> bool * World;  (* pathlib.Path(file).exists() *)
  os_sleep : float -> World -> World            (* time.sleep(secs) *)
}.

(** What a call did, in order, with the answers it received. *)
Inductive event : Type :=
| EvTime (t : float)
| EvExists (file : string) (found : bool)
| EvSleep (secs : float).

Definition half_second : float := literal 5 10.

(** The [while] loop of [wait_for_file], one iteration per unit of
    fuel; [None] when the fuel runs out before the loop is left. *)
Fixpoint wait_loop (os : OS) (fuel : nat) (file : string) (timeout : num)
    (start_time : float) (w : World os) : option (bool * World os * list event) :=
  match fuel with
  | O => None
  | S fuel' =>
      let (found, w1) := os_exists os file w in
      if found then Some (true, w1, [EvExists file true])
      else
        let (now, w2) := os_time os w1 in
        if fgt_num (fsub now start_time) timeout
        then Some (false, w2, [EvExists file false; EvTime now])
        else
          match wait_loop os fuel' file timeout start_time
                  (os_sleep os half_second w2) with
          | Some (r, w', evs) =>
              Some (r, w', EvExists file false :: EvTime now
                             :: EvSleep half_second :: evs)
          | None => None
          end
  end.

Definition wait_for_file (os : OS) (fuel : nat) (file : string) (timeout : num)
    (w : World os) : option (bool * World os * list event) :=
  let (start_time, w0) := os_time os w in
  match wait_loop os fuel file timeout start_time w0 with
  | Some (r, w', evs) => Some (r, w', EvTime start_time :: evs)
  | None => None
  end.

(** The world at the [k]-th existence check of a call that is still
    looping, what that check answers, and whether the clock reading
    that follows it exceeds the timeout. *)
Definition after_poll (os : OS) (file : string) (w : World os) : World os :=
  os_sleep os half_second (snd (os_time os (snd (os_exists os file w)))).

Fixpoint poll_world (os : OS) (file : string) (k : nat) (w : World os) : World os :=
  match k with
  | O => w
  | S k' => poll_world os file k' (after_poll os file w)
  end.

Definition poll_found (os : OS) (file : string) (w : World os) (k : nat) : bool :=
  fst (os_exists os file (poll_world os file k w)).

Definition poll_timed_out (os : OS) (file : string) (timeout : num)
    (start_time : float) (w : World os) (k : nat) : bool :=
  fgt_num
    (fsub (fst (os_time os (snd (os_exists os file (poll_world os file k w)))))
          start_time)
    timeout.

(** The first [k] polls neither find the path nor run out of time. *)
Definition keeps_waiting (os : OS) (file : string) (timeout : num)
    (start_time : float) (w : World os) (k : nat) : Prop :=
  forall j, (j < k)%nat ->
            poll_found os file w j = false
            /\ poll_timed_out os file timeout start_time w j = false.

Definition sleeps (evs : list event) : list float :=
  flat_map (fun e => match e with EvSleep d => [d] | _ => [] end) evs.

Definition checks (evs : list event) : list bool :=
  flat_map (fun e => match e with EvExists _ b => [b] | _ => [] end) evs.

(** A simulated world: a clock that only a sleep advances, and one
    file that comes into existence at a given instant. *)
Record SimWorld : Type := mkSim {
  sim_now : float;
  sim_created : float
}.

Definition sim_os : OS :=
  {| World := SimWorld;
     os_time := fun w => (sim_now w, w);
     os_exists := fun _ w => (fle (sim_created w) (sim_now w), w);
     os_sleep := fun secs w =>
       {| sim_now := fadd (sim_now w) secs; sim_created := sim_created w |} |}.

(** A world as the simulated one in which, besides, every call takes
    [lag]: the clock has moved on by [lag] after a reading and after a
    check, and by [secs] and [lag] after a sleep. *)
Definition later (d : float) (w : SimWorld) : SimWorld :=
  {| sim_now := fadd (sim_now w) d; sim_created := sim_created w |}.

Definition lag_os (lag : float) : OS :=
  {| World := SimWorld;
     os_time := fun w => (sim_now w, later lag w);
     os_exists := fun _ w => (fle (sim_created w) (sim_now w), later lag w);
     os_sleep := fun secs w => later lag (later secs w) |}.

(** The reading of the interface description: the path came into
    existence no later than [timeout] after the call. *)
Definition created_within_timeout (w : SimWorld) (timeout : num) : bool :=
  negb (fgt_num (fsub (sim_created w) (sim_now w)) timeout).

(** ** install_root_cert

    [exec] is what running a command line comes to: either the
    command ends and gives its return code and its captured, decoded
    standard output, or no result is captured (the program cannot be
    started, its output cannot be decoded) and [subprocess.run] raises.
    With [check=True] it also raises when the return code is not
    zero. *)

Inductive run_outcome : Type :=
| Exited (returncode : Z) (stdout : string)
| Failed (e : exn).

Record CompletedProcess : Type := mkCompleted {
  args : list string;
  returncode : Z;
  stdout : string
}.

Definition subprocess_run (exec : list string -> run_outcome)
    (cmd : list string) (check : bool) : result CompletedProcess :=
  match exec cmd with
  | Failed e => Raise e
  | Exited rc out =>
      if check && negb (rc =? 0) then Raise (CalledProcessError rc)
      else Ok {| args := cmd; returncode := rc; stdout := out |}
  end.

(** The message printed on an unknown platform does not reach the
    returned value and is left out. *)
Definition install_root_cert (platform : string)
    (exec : list string -> run_outcome) (cert_file : string)
    : result (bool * string) :=
  let check_result (result : CompletedProcess) :=
    if returncode result =? 0 then Ok (true, stdout result)
    else Ok (false, stdout result) in
  if String.eqb platform "win32" then
    bind (subprocess_run exec
            ["certutil"; "-addstore"; "Root"; cert_file] false)
         check_result
  else if String.eqb platform "darwin" then
    bind (subprocess_run exec
            ["sudo"; "security"; "add-trusted-cert"; "-d"; "-r"; "trustRoot";
             "-k"; "/Library/Keychains/System.keychain"; cert_file] true)
         check_result
  else Ok (false, EmptyString).

(** ** random_str *)

Definition ascii_lowercase : string := "abcdefghijklmnopqrstuvwxyz".
Definition ascii_uppercase : string := "ABCDEFGHIJKLMNOPQRSTUVWXYZ".
Definition ascii_letters : string :=
  String.append ascii_lowercase ascii_uppercase.
Definition digits : string := "0123456789".

(** Iterating over a [str] gives its characters as strings of length one. *)
Definition str_items (s : string) : list string :=
  map (fun c => String c EmptyString) (list_ascii_of_string s).

(** [''.join(items)] *)
Definition join (items : list string) : string := String.concat EmptyString items.

(** [random.choices(population, k=k)]: [k] independent draws with
    replacement, none when [k] is not positive; the number of draws
    is handed to a counter of the machine (64 bits, signed), and a [k]
    outside its range raises [OverflowError].  [randbelow j n] is
    the index the generator yields for the [j]-th draw from a
    population of size [n]; indexing raises when it is out of range. *)
Fixpoint draw_from {A : Type} (randbelow : nat -> nat -> nat)
    (population : list A) (j k : nat) : result (list A) :=
  match k with
  | O => Ok []
  | S k' =>
      match nth_error population (randbelow j (List.length population)) with
      | Some x =>
          bind (draw_from randbelow population (S j) k')
               (fun xs => Ok (x :: xs))
      | None => Raise IndexError
      end
  end.

Definition choices {A : Type} (randbelow : nat -> nat -> nat)
    (population : list A) (k : Z) : result (list A) :=
  if (k <? - 2 ^ 63) || (2 ^ 63 <=? k) then Raise OverflowError
  else draw_from randbelow population 0 (Z.to_nat k).

Definition random_str (randbelow : nat -> nat -> nat) (length : Z)
    : result string :=
  bind (choices randbelow (str_items (String.append ascii_letters digits)) length)
       (fun items => Ok (join items)).

(** Letters and digits, by character code. *)
Definition is_ascii_letter (c : ascii) : bool :=
  let n := nat_of_ascii c in
  ((65 <=? n) && (n <=? 90) || (97 <=? n) && (n <=? 122))%nat.

Definition is_digit (c : ascii) : bool :=
  let n := nat_of_ascii c in ((48 <=? n) && (n <=? 57))%nat.

Definition is_letter_or_digit (c : ascii) : bool :=
  is_ascii_letter c || is_digit c.

(** A string of length one holding a letter or a digit. *)
Definition one_char_alnum (x : string) : bool :=
  match x with
  | String c EmptyString => is_letter_or_digit c
  | _ => false
  end.

(** ** Runs of a counter *)

Inductive call : Type :=
| Create (now : float)
| RecordEvent (now : float)
| Reset (now : float)
| Rate.

(** The counter after one call; a raising [frame] leaves the object it
    had reached, and the caller may go on using it. *)
Definition step (c : FPSCounter) (op : call) : FPSCounter :=
  match op with
  | Create now => __init__ now
  | RecordEvent now => fst (frame c now)
  | Reset now => reset c now
  | Rate => fst (fps c)
  end.

(** The counters held after each call of a sequence, the first one included. *)
Fixpoint history (c : FPSCounter) (ops : list call) : list FPSCounter :=
  c :: match ops with
       | [] => []
       | op :: ops' => history (step c op) ops'
       end.

Definition record_events (c : FPSCounter) (times : list float) : FPSCounter :=
  fold_left (fun c now => fst (frame c now)) times c.

(** The counter with its count replaced and nothing else touched. *)
Definition with_count (self : FPSCounter) (n : Z) : FPSCounter :=
  {| _start_time := _start_time self; _frame_count := n; _fps := _fps self |}.

Definition counter_inv (c : FPSCounter) : Prop :=
  0 <= _frame_count c /\ num_ge0 (_fps c) = true.

(** A call that cannot close the window opened at [t0]: a rate read,
    or an event recorded when [now - t0 >= 1.0] does not hold. *)
Definition window_stays_open (t0 : float) (op : call) : Prop :=
  match op with
  | RecordEvent now => fge (fsub now t0) (literal 10 10) = false
  | Rate => True
  | Create _ | Reset _ => False
  end.

(** The ten ticks 0.1, 0.2, ..., 1.0. *)
Definition ticks : list float :=
  map (fun k => literal k 10) [1; 2; 3; 4; 5; 6; 7; 8; 9; 10].

(** A float that is not NaN and whose sign bit is clear. *)
Definition sign_clear (x : float) : Prop :=
  match x with
  | S754_nan => False
  | S754_zero s | S754_infinity s | S754_finite s _ _ => s = false
  end.

(** ** The file system seen by [sub_folder], [sub_file] and [list_files]

    A tree of directories and regular files without links and without
    permissions.  A path is the list of its components from the root;
    the strings handed to [pathlib.Path] are taken after parsing, as
    relative or absolute lists of names.  The tree is walked name by
    name, which is what the system does for plain names only (see
    [plain]): the statements below are about plain paths and say so.
    Paths are printed in the POSIX way. *)

Definition path : Type := list string.

#[warnings="-register-all"] Inductive node : Type :=
| FileNode
| DirNode (entries : list (string * node)).

Inductive kind : Type := IsFile | IsDir.

Inductive oserror : Type :=
| FileNotFoundError
| FileExistsError
| NotADirectoryError.

Inductive os_result (A : Type) : Type :=
| Done (a : A)
| OSError (e : oserror).
Arguments Done {A} a.
Arguments OSError {A} e.

(** The first entry of a directory with the given name. *)
Fixpoint entry (name : string) (entries : list (string * node)) : option node :=
  match entries with
  | [] => None
  | (n, x) :: rest => if String.eqb n name then Some x else entry name rest
  end.

Fixpoint set_entry (name : string) (x : node) (entries : list (string * node))
    : list (string * node) :=
  match entries with
  | [] => []
  | (n, y) :: rest =>
      if String.eqb n name then (n, x) :: rest
      else (n, y) :: set_entry name x rest
  end.

(** What a path leads to; nothing lies below a regular file. *)
Fixpoint lookup (t : node) (p : path) : option node :=
  match p with
  | [] => Some t
  | name :: rest =>
      match t with
      | FileNode => None
      | DirNode es =>
          match entry name es with
          | Some child => lookup child rest
          | None => None
          end
      end
  end.

Definition stat (fs : node) (p : path) : option kind :=
  match lookup fs p with
  | Some FileNode => Some IsFile
  | Some (DirNode _) => Some IsDir
  | None => None
  end.

(** [Path.exists()], [Path.is_file()], [Path.is_dir()] *)
Definition path_exists (fs : node) (p : path) : bool :=
  match stat fs p with Some _ => true | None => false end.

Definition is_file (fs : node) (p : path) : bool :=
  match stat fs p with Some IsFile => true | _ => false end.

Definition is_dir (fs : node) (p : path) : bool :=
  match stat fs p with Some IsDir => true | _ => false end.

(** [os.mkdir]: the path must be new and its parent a directory. *)
Fixpoint os_mkdir (t : node) (p : path) {struct p} : os_result node :=
  match p with
  | [] => OSError FileExistsError
  | name :: rest =>
      match t with
      | FileNode => OSError NotADirectoryError
      | DirNode es =>
          match entry name es, rest with
          | None, [] => Done (DirNode (es ++ [(name, DirNode [])]))
          | None, _ :: _ => OSError FileNotFoundError
          | Some child, _ =>
              match os_mkdir child rest with
              | Done child' => Done (DirNode (set_entry name child' es))
              | OSError e => OSError e
              end
          end
      end
  end.

(** [Path.mkdir(exist_ok=exist_ok)], parents not created: a missing
    parent is an error; any other error is dropped when [exist_ok] is
    set and the path is a directory. *)
Definition path_mkdir (fs : node) (p : path) (exist_ok : bool) : os_result node :=
  match os_mkdir fs p with
  | Done fs' => Done fs'
  | OSError FileNotFoundError => OSError FileNotFoundError
  | OSError e => if exist_ok && is_dir fs p then Done fs else OSError e
  end.

(** A parsed path argument. *)
Inductive pure_path : Type :=
| Rel (parts : path)
| Abs (parts : path).

(** [base / other], [p.parent], and the absolute path the system
    resolves [p] to from the working directory; on plain names
    [resolve()] has nothing else to do. *)
Definition joinpath (base other : pure_path) : pure_path :=
  match other, base with
  | Abs _, _ => other
  | Rel q, Rel p => Rel (p ++ q)
  | Rel q, Abs p => Abs (p ++ q)
  end.

Definition parent (p : pure_path) : pure_path :=
  match p with
  | Rel parts => Rel (removelast parts)
  | Abs parts => Abs (removelast parts)
  end.

Definition absolute (cwd : path) (p : pure_path) : path :=
  match p with
  | Rel parts => cwd ++ parts
  | Abs parts => parts
  end.

(** The names a parsed path is made of: not empty, not a dot
    component, without separator.  The model follows the system on
    paths made of such names; a path through [..] is not followed. *)
Definition plain_name (n : string) : bool :=
  negb (String.eqb n EmptyString) && negb (String.eqb n ".")
  && negb (String.eqb n "..")
  && negb (existsb (Ascii.eqb "/"%char) (list_ascii_of_string n)).

Definition plain (p : path) : bool := forallb plain_name p.


Definition path_str (p : path) : string :=
  String.append "/" (String.concat "/" p).

(** [sub_folder]: [meipass] is [sys._MEIPASS] when the attribute
    exists, [cwd] the working directory. *)
Definition sub_folder (meipass : option pure_path) (cwd : path) (fs : node)
    (folder_name : pure_path) : node * os_result path :=
  let base_path :=
    match meipass with
    | Some m => parent m
    | None => Rel []
    end in
  let subfolder := joinpath base_path folder_name in
  if negb (path_exists fs (absolute cwd subfolder)) then
    match path_mkdir fs (absolute cwd subfolder) true with
    | Done fs' => (fs', Done (absolute cwd subfolder))
    | OSError e => (fs, OSError e)
    end
  else (fs, Done (absolute cwd subfolder)).

(** The path [sub_folder] works on. *)
Definition sub_folder_target (meipass : option pure_path) (cwd : path)
    (folder_name : pure_path) : path :=
  absolute cwd
    (joinpath (match meipass with Some m => parent m | None => Rel [] end)
              folder_name).


(** [list_files]: whatever [iterdir] raises is caught and gives the
    empty list; each entry is tested again through its path. *)
Definition list_files (cwd : path) (fs : node) (folder : pure_path)
    (full_path : bool) : list string :=
  match lookup fs (absolute cwd folder) with
  | Some (DirNode es) =>
      let files :=
        filter (fun name => is_file fs (absolute cwd folder ++ [name]))
               (map fst es) in
      if full_path
      then map (fun name => path_str (absolute cwd folder ++ [name])) files
      else files
  | Some FileNode => []
  | None => []
  end.

(** ** set_dpi_awareness

    What each of the two system calls does is an input; the calls
    made are returned in order with the exception that escapes, if
    any. *)

Inductive api_outcome : Type :=
| Returns
| RaisesAttributeError
| RaisesOther.

Inductive dpi_call : Type :=
| SetProcessDpiAwareness (level : Z)
| SetProcessDPIAware.

Definition set_dpi_awareness (platform : string)
    (shcore user32 : api_outcome) : list dpi_call * option api_outcome :=
  if String.eqb platform "win32" then
    match shcore with
    | Returns => ([SetProcessDpiAwareness 1], None)
    | RaisesAttributeError =>
        match user32 with
        | Returns => ([SetProcessDpiAwareness 1; SetProcessDPIAware], None)
        | raised => ([SetProcessDpiAwareness 1; SetProcessDPIAware], Some raised)
        end
    | RaisesOther => ([SetProcessDpiAwareness 1], None)
    end
  else ([], None).

(** ** error_to_str

    The classes the function tells apart, each with what [str(error)]
    gives; [LanStr] is known here by the four attributes read. *)

Inductive GameMode : Type := MJ4P | MJ3P.

Definition GameMode_value (m : GameMode) : string :=
  match m with
  | MJ4P => "4P"
  | MJ3P => "3P"
  end.

Record LanStr : Type := mkLanStr {
  MODEL_FILE_ERROR : string;
  MITM_SERVER_ERROR : string;
  MODEL_NOT_SUPPORT_MODE_ERROR : string;
  CONNECTION_ERROR : string
}.

Inductive error : Type :=
| ModelFileException (text : string)
| MITMException (text : string)
| BotNotSupportingMode (mode : GameMode)
| ConnectionError (text : string)
| ReadTimeout (text : string)
| OtherException (text : string).

Definition error_to_str (err : error) (lan : LanStr) : string :=
  match err with
  | ModelFileException _ => MODEL_FILE_ERROR lan
  | MITMException _ => MITM_SERVER_ERROR lan
  | BotNotSupportingMode mode =>
      String.append (MODEL_NOT_SUPPORT_MODE_ERROR lan)
                    (String.append " " (GameMode_value mode))
  | ConnectionError text =>
      String.append (CONNECTION_ERROR lan) (String.append ": " text)
  | ReadTimeout text =>
      String.append (CONNECTION_ERROR lan) (String.append ": " text)
  | OtherException text => text
  end.

(** Every character. *)
Definition all_ascii : list ascii := map ascii_of_nat (seq 0 256).

(** The population [random_str] draws from. *)
Definition population : list string :=
  str_items (String.append ascii_letters digits).

(** ** More on runs of a counter *)

Definition count_events (ops : list call) : Z :=
  Z.of_nat (List.length
              (filter (fun op => match op with RecordEvent _ => true | _ => false end)
                      ops)).

Definition run (c : FPSCounter) (ops : list call) : FPSCounter :=
  fold_left step ops c.

(** * Properties *)

(** ** Floats *)

Lemma literal_1_0 : literal 10 10 = S754_finite false 4503599627370496 (-52).
Proof. vm_compute. reflexivity. Qed.

Lemma literal_0_5 : half_second = S754_finite false 4503599627370496 (-53).
Proof. vm_compute. reflexivity. Qed.

Lemma SFcompare_antisym (x y : float) :
  SFcompare y x = option_map CompOpp (SFcompare x y).
Proof.
  destruct x as [sx|sx| |sx mx ex], y as [sy|sy| |sy my ey]; simpl;
    try reflexivity;
    try (destruct sx; reflexivity); try (destruct sy; reflexivity);
    try (destruct sx, sy; reflexivity).
  destruct sx, sy; simpl; try reflexivity;
    rewrite (Z.compare_antisym ey ex);
    destruct (ey ?= ex); simpl; try reflexivity;
    change (Pos.compare_cont Eq mx my) with (mx ?= my)%positive;
    change (Pos.compare_cont Eq my mx) with (my ?= mx)%positive;
    rewrite (Pos.compare_antisym my mx);
    destruct (my ?= mx)%positive; reflexivity.
Qed.

Lemma flt_not_fge (x y : float) : flt x y = true -> fge x y = false.
Proof.
  unfold flt, fge, SFltb, SFleb. rewrite (SFcompare_antisym x y).
  destruct (SFcompare x y) as [[]|]; simpl; congruence.
Qed.

Lemma fge_one_inv (x : float) :
  fge x (literal 10 10) = true ->
  (exists m e, x = S754_finite false m e) \/ x = S754_infinity false.
Proof.
  rewrite literal_1_0. unfold fge, SFleb.
  destruct x as [s|s| |s m e]; simpl; try discriminate.
  - destruct s; [discriminate | auto].
  - destruct s; [discriminate | eauto].
Qed.

Lemma fge_one_nonzero (x : float) :
  fge x (literal 10 10) = true -> feq x fzero = false.
Proof.
  intros H. destruct (fge_one_inv x H) as [(m & e & ->) | ->]; reflexivity.
Qed.

Lemma iter_pos_preserves {A : Type} (P : A -> Prop) (f : A -> A) :
  (forall x, P x -> P (f x)) ->
  forall n x, P x -> P (iter_pos f n x).
Proof.
  intros Hf. induction n as [n IH|n IH|]; simpl; intros x Hx; auto.
Qed.

Lemma shr_1_nonneg (mrs : shr_record) :
  0 <= shr_m mrs -> 0 <= shr_m (shr_1 mrs).
Proof.
  destruct mrs as [m r s]. simpl.
  destruct m as [|[p|p|]|[p|p|]]; simpl; lia.
Qed.

Lemma shr_fexp_nonneg (m e : Z) (l : location) :
  0 <= m -> 0 <= shr_m (fst (shr_fexp prec emax m e l)).
Proof.
  intros Hm. unfold shr_fexp, shr.
  assert (H0 : 0 <= shr_m (shr_record_of_loc m l))
    by (destruct l as [|[]]; exact Hm).
  destruct (fexp prec emax (Zdigits2 m + e) - e) as [|p|p]; simpl; auto.
  apply (iter_pos_preserves (fun r => 0 <= shr_m r)); auto using shr_1_nonneg.
Qed.

Lemma round_nearest_even_nonneg (m : Z) (l : location) :
  0 <= m -> 0 <= round_nearest_even m l.
Proof.
  intros Hm. destruct l as [|[]]; simpl; try lia.
  destruct (Z.even m); lia.
Qed.

Lemma binary_round_aux_sign_clear (m e : Z) (l : location) :
  0 <= m -> sign_clear (binary_round_aux prec emax false m e l).
Proof.
  intros Hm. unfold binary_round_aux.
  pose proof (shr_fexp_nonneg m e l Hm) as H1.
  destruct (shr_fexp prec emax m e l) as [mrs1 e1]. simpl in H1.
  pose proof (shr_fexp_nonneg _ e1 loc_Exact
                (round_nearest_even_nonneg _ (loc_of_shr_record mrs1) H1)) as H2.
  destruct (shr_fexp prec emax _ e1 loc_Exact) as [mrs2 e2]. simpl in H2.
  destruct (shr_m mrs2) as [|p|p]; simpl; try reflexivity; try lia.
  destruct (e2 <=? _); exact eq_refl.
Qed.

Lemma round_int_sign_clear (n : Z) : 0 <= n -> sign_clear (round_int n).
Proof.
  intros Hn. unfold round_int, binary_normalize.
  destruct n as [|p|p]; try lia; [exact eq_refl|].
  unfold binary_round. destruct (shl_align _ _ _) as [mz ez].
  apply binary_round_aux_sign_clear. lia.
Qed.

Lemma fdiv_sign_clear (a b : float) :
  sign_clear a -> (forall s, a <> S754_infinity s) ->
  fge b (literal 10 10) = true ->
  sign_clear (fdiv a b).
Proof.
  intros Ha Hfin Hb.
  destruct (fge_one_inv b Hb) as [(mb & eb & ->) | ->];
    destruct a as [sa|sa| |sa ma ea]; simpl in Ha; try contradiction; subst;
    try exact eq_refl; try (exfalso; eapply Hfin; reflexivity).
  unfold fdiv, SFdiv. simpl xorb.
  destruct (SFdiv_core_binary prec emax (Z.pos ma) ea (Z.pos mb) eb)
    as [[q e'] l] eqn:Hcore.
  apply binary_round_aux_sign_clear.
  unfold SFdiv_core_binary in Hcore.
  set (m' := match _ - _ - _ with Z0 => _ | Zpos _ => _ | Zneg _ => _ end) in Hcore.
  assert (Hm' : 0 <= m').
  { subst m'. destruct (_ - _ - _) as [|p|p]; try lia.
    rewrite Z.shiftl_mul_pow2 by lia. apply Z.mul_nonneg_nonneg; [lia|].
    apply Z.pow_nonneg. lia. }
  pose proof (Z.div_pos m' (Z.pos mb) Hm' ltac:(lia)) as Hq.
  unfold Z.div in Hq.
  destruct (Z.div_eucl m' (Z.pos mb)) as [q0 r0].
  inversion Hcore; subst. exact Hq.
Qed.

Lemma sign_clear_ge0 (x : float) : sign_clear x -> fge x fzero = true.
Proof.
  destruct x as [s|s| |s m e]; simpl; intros H; try contradiction; subst;
    exact eq_refl.
Qed.

Lemma int_truediv_float_inv (n : Z) (b q : float) :
  int_truediv_float n b = Ok q ->
  exists a, float_of_int n = Ok a /\ feq b fzero = false /\ q = fdiv a b.
Proof.
  unfold int_truediv_float, float_truediv.
  destruct (float_of_int n) as [a|e]; simpl; [|discriminate].
  destruct (feq b fzero); [discriminate|].
  intros H; inversion H; eauto.
Qed.

Lemma float_of_int_inv (n : Z) (a : float) :
  float_of_int n = Ok a -> a = round_int n /\ forall s, a <> S754_infinity s.
Proof.
  unfold float_of_int. destruct (round_int n); intros H; inversion H; subst;
    split; try reflexivity; intros s' H'; discriminate.
Qed.

Lemma int_truediv_float_sign_clear (n : Z) (b q : float) :
  0 <= n -> fge b (literal 10 10) = true ->
  int_truediv_float n b = Ok q -> sign_clear q.
Proof.
  intros Hn Hb Hq.
  destruct (int_truediv_float_inv n b q Hq) as (a & Ha & _ & ->).
  destruct (float_of_int_inv n a Ha) as [-> Hfin].
  apply fdiv_sign_clear; auto using round_int_sign_clear.
Qed.

(** ** Range of the conversion of an int to a float *)

Lemma Zdigits2_nonneg (m : Z) : 0 <= Zdigits2 m.
Proof. destruct m; simpl; lia. Qed.

Lemma shr_1_digits (mrs : shr_record) :
  0 <= shr_m mrs ->
  Zdigits2 (shr_m (shr_1 mrs)) = Z.max 0 (Zdigits2 (shr_m mrs) - 1).
Proof.
  destruct mrs as [m r s]. cbn [shr_m].
  destruct m as [|[p|p|]|p]; cbn [shr_1 shr_m Zdigits2 digits2_pos]; lia.
Qed.

Lemma iter_shr_1_digits (n : positive) :
  forall mrs,
    0 <= shr_m mrs ->
    0 <= shr_m (iter_pos shr_1 n mrs)
    /\ Zdigits2 (shr_m (iter_pos shr_1 n mrs))
       = Z.max 0 (Zdigits2 (shr_m mrs) - Z.pos n).
Proof.
  induction n as [n IH|n IH|]; intros mrs H; simpl iter_pos.
  - pose proof (shr_1_nonneg mrs H) as H1.
    pose proof (shr_1_digits mrs H) as D1.
    destruct (IH _ H1) as [H2 D2]. destruct (IH _ H2) as [H3 D3].
    split; [exact H3|]. rewrite D3, D2, D1. lia.
  - destruct (IH _ H) as [H2 D2]. destruct (IH _ H2) as [H3 D3].
    split; [exact H3|]. rewrite D3, D2. lia.
  - split; [apply shr_1_nonneg; exact H | rewrite shr_1_digits by exact H; lia].
Qed.

Lemma shr_digits (mrs : shr_record) (e n : Z) :
  0 <= shr_m mrs ->
  snd (shr mrs e n) = e + Z.max 0 n
  /\ 0 <= shr_m (fst (shr mrs e n))
  /\ Zdigits2 (shr_m (fst (shr mrs e n)))
     = Z.max 0 (Zdigits2 (shr_m mrs) - Z.max 0 n).
Proof.
  intros H. pose proof (Zdigits2_nonneg (shr_m mrs)) as Hd.
  destruct n as [|p|p]; simpl.
  - repeat split; try lia.
  - destruct (iter_shr_1_digits p mrs H) as [H1 D1].
    repeat split; try lia; assumption.
  - repeat split; try lia.
Qed.

Lemma digits2_pos_succ (p : positive) :
  Z.pos (digits2_pos (Pos.succ p)) <= Z.pos (digits2_pos p) + 1.
Proof. induction p as [p IH|p IH|]; simpl; lia. Qed.

Lemma round_nearest_even_digits (m : Z) (l : location) :
  0 <= m -> Zdigits2 (round_nearest_even m l) <= Zdigits2 m + 1.
Proof.
  intros Hm.
  assert (H1 : Zdigits2 (m + 1) <= Zdigits2 m + 1).
  { destruct m as [|p|p]; try lia; simpl; [lia|].
    rewrite Pos.add_1_r. apply digits2_pos_succ. }
  destruct l as [|[]]; simpl; try lia.
  destruct (Z.even m); lia.
Qed.

Lemma binary_round_aux_finite (s : bool) (m e : Z) (l : location) :
  0 <= m -> e <= 970 -> Zdigits2 m + e <= 1023 ->
  forall s', binary_round_aux prec emax s m e l <> S754_infinity s'.
Proof.
  intros Hm He Hd s'. unfold binary_round_aux, shr_fexp.
  assert (H0 : 0 <= shr_m (shr_record_of_loc m l))
    by (destruct l as [|[]]; exact Hm).
  assert (E0 : shr_m (shr_record_of_loc m l) = m)
    by (destruct l as [|[]]; reflexivity).
  destruct (shr_digits (shr_record_of_loc m l) e
              (fexp prec emax (Zdigits2 m + e) - e) H0) as (X1 & P1 & D1).
  destruct (shr (shr_record_of_loc m l) e _) as [mrs1 e1].
  simpl in X1, P1, D1. rewrite E0 in D1.
  set (m1 := round_nearest_even (shr_m mrs1) (loc_of_shr_record mrs1)).
  pose proof (round_nearest_even_nonneg _ (loc_of_shr_record mrs1) P1) as P1'.
  pose proof (round_nearest_even_digits _ (loc_of_shr_record mrs1) P1) as D1'.
  fold m1 in P1', D1'.
  assert (H1 : 0 <= shr_m (shr_record_of_loc m1 loc_Exact)) by exact P1'.
  destruct (shr_digits (shr_record_of_loc m1 loc_Exact) e1
              (fexp prec emax (Zdigits2 m1 + e1) - e1) H1) as (X2 & P2 & D2).
  destruct (shr (shr_record_of_loc m1 loc_Exact) e1 _) as [mrs2 e2].
  simpl in X2, P2, D2.
  destruct (shr_m mrs2) as [|p|p]; try discriminate.
  assert (Hle : e2 <= emax - prec).
  { unfold fexp, emin, prec, emax in *. lia. }
  apply Z.leb_le in Hle. rewrite Hle. discriminate.
Qed.

Lemma iter_xO_digits (p d : positive) :
  Z.pos (digits2_pos (Pos.iter xO p d)) = Z.pos (digits2_pos p) + Z.pos d.
Proof.
  induction d as [|d IH] using Pos.peano_ind.
  - simpl. lia.
  - rewrite Pos.iter_succ. simpl digits2_pos. lia.
Qed.

Lemma digits2_pos_bound (p : positive) :
  forall k, 0 <= k -> Z.pos p < 2 ^ k -> Z.pos (digits2_pos p) <= k.
Proof.
  induction p as [p IH|p IH|]; intros k Hk H; simpl digits2_pos.
  - assert (k <> 0) by (intros ->; simpl in H; lia).
    replace k with (Z.succ (k - 1)) in H by lia.
    rewrite Z.pow_succ_r in H by lia.
    specialize (IH (k - 1) ltac:(lia) ltac:(lia)). lia.
  - assert (k <> 0) by (intros ->; simpl in H; lia).
    replace k with (Z.succ (k - 1)) in H by lia.
    rewrite Z.pow_succ_r in H by lia.
    specialize (IH (k - 1) ltac:(lia) ltac:(lia)). lia.
  - assert (k <> 0) by (intros ->; simpl in H; lia). lia.
Qed.

Lemma binary_round_finite (s : bool) (p : positive) :
  Z.pos p < 2 ^ 1023 ->
  forall s', binary_round prec emax s p 0 <> S754_infinity s'.
Proof.
  intros Hp. unfold binary_round, shl_align.
  pose proof (digits2_pos_bound p 1023 ltac:(lia) Hp) as Hd.
  destruct (fexp prec emax (Z.pos (digits2_pos p) + 0) - 0) as [|d|d] eqn:E;
    apply binary_round_aux_finite; simpl Zdigits2;
    try rewrite iter_xO_digits; unfold fexp, emin, prec, emax in *; lia.
Qed.

Lemma float_of_int_in_range (n : Z) :
  Z.abs n < 2 ^ 1023 -> float_of_int n = Ok (round_int n).
Proof.
  intros Hn.
  assert (H : forall s, round_int n <> S754_infinity s).
  { unfold round_int, binary_normalize. destruct n as [|p|p].
    - discriminate.
    - apply binary_round_finite. lia.
    - apply binary_round_finite. lia. }
  unfold float_of_int. destruct (round_int n) as [s|s| |s m e]; try reflexivity.
  exfalso. apply (H s). reflexivity.
Qed.

(** The largest int that converts, and the first that does not. *)
Lemma float_of_int_threshold :
  float_of_int (2 ^ 1024 - 2 ^ 970 - 1)
  = Ok (S754_finite false 9007199254740991 971)
  /\ float_of_int (2 ^ 1024 - 2 ^ 970) = Raise OverflowError.
Proof. vm_compute. split; reflexivity. Qed.

(** ** FPSCounter *)

Lemma frame_open_window (self : FPSCounter) (now : float) :
  fge (fsub now (_start_time self)) (literal 10 10) = false ->
  frame self now = (with_count self (_frame_count self + 1), Ok tt).
Proof. intros H. unfold frame. simpl. rewrite H. reflexivity. Qed.

Lemma frame_close_window (self : FPSCounter) (now a : float) :
  fge (fsub now (_start_time self)) (literal 10 10) = true ->
  float_of_int (_frame_count self + 1) = Ok a ->
  frame self now =
    ({| _start_time := now; _frame_count := 0;
        _fps := Float (fdiv a (fsub now (_start_time self))) |}, Ok tt).
Proof.
  intros H Ha. unfold frame. simpl. rewrite H.
  unfold int_truediv_float, float_truediv. rewrite Ha. simpl.
  rewrite (fge_one_nonzero _ H). reflexivity.
Qed.

Lemma frame_overflow (self : FPSCounter) (now : float) :
  fge (fsub now (_start_time self)) (literal 10 10) = true ->
  float_of_int (_frame_count self + 1) = Raise OverflowError ->
  frame self now =
    (with_count self (_frame_count self + 1), Raise OverflowError).
Proof.
  intros H Ha. unfold frame. simpl. rewrite H.
  unfold int_truediv_float. rewrite Ha. reflexivity.
Qed.

Lemma frame_preserves_inv (c : FPSCounter) (now : float) :
  counter_inv c -> counter_inv (fst (frame c now)).
Proof.
  intros [Hc Hr]. unfold frame. simpl.
  destruct (fge (fsub now (_start_time c)) (literal 10 10)) eqn:Hge.
  - destruct (int_truediv_float (_frame_count c + 1) _) as [q|e] eqn:Hq;
      simpl; split; simpl; try lia; auto.
    apply sign_clear_ge0.
    apply (int_truediv_float_sign_clear
             (_frame_count c + 1) (fsub now (_start_time c)) q);
      [lia | exact Hge | exact Hq].
  - split; simpl; [lia | assumption].
Qed.

Lemma init_inv (now : float) : counter_inv (__init__ now).
Proof. split; simpl; [lia | reflexivity]. Qed.

Lemma step_preserves_inv (c : FPSCounter) (op : call) :
  counter_inv c -> counter_inv (step c op).
Proof.
  intros Hc. destruct op as [now|now|now|]; simpl;
    auto using init_inv, frame_preserves_inv.
Qed.

Lemma record_events_open_window (times : list float) :
  forall c,
    (forall t, In t times ->
               fge (fsub t (_start_time c)) (literal 10 10) = false) ->
    record_events c times =
      with_count c (_frame_count c + Z.of_nat (List.length times)).
Proof.
  induction times as [|t times IH]; intros c H.
  - simpl. destruct c. unfold with_count. simpl. f_equal. lia.
  - unfold record_events in *. simpl fold_left.
    rewrite (frame_open_window c t) by (apply H; left; reflexivity).
    simpl fst. rewrite IH.
    + unfold with_count. simpl. f_equal. lia.
    + intros t' Ht'. apply H. right. exact Ht'.
Qed.

(** C1 (as amended).  A call of [frame] at time [now], on a counter
    whose incremented count converts to a float [a] (as every count
    below [2^1023] in absolute value does): when
    [now - _start_time >= 1.0] the call returns with [_fps] set to [a]
    divided by the elapsed time, [_start_time] set to [now] and
    [_frame_count] set to 0.  On every counter, when the elapsed time
    is below 1.0 the call returns with the count incremented by
    exactly one and the two other attributes untouched. *)
Theorem frame_spec (self : FPSCounter) (now : float) :
  let n := _frame_count self + 1 in
  let elapsed := fsub now (_start_time self) in
  (Z.abs n < 2 ^ 1023 -> float_of_int n = Ok (round_int n))
  /\ (forall a,
        float_of_int n = Ok a ->
        fge elapsed (literal 10 10) = true ->
        int_truediv_float n elapsed = Ok (fdiv a elapsed)
        /\ frame self now =
             ({| _start_time := now; _frame_count := 0;
                 _fps := Float (fdiv a elapsed) |}, Ok tt))
  /\ (flt elapsed (literal 10 10) = true ->
        frame self now =
          ({| _start_time := _start_time self; _frame_count := n;
              _fps := _fps self |}, Ok tt)).
Proof.
  intros n elapsed. split; [|split].
  - apply float_of_int_in_range.
  - intros a Hconv H. split.
    + unfold int_truediv_float, float_truediv. rewrite Hconv. simpl.
      subst elapsed. rewrite (fge_one_nonzero _ H). reflexivity.
    + apply frame_close_window; assumption.
  - intros H. apply frame_open_window. apply flt_not_fge. exact H.
Qed.

(** A window of ten events closed after two seconds, and a single
    event half a second after creation. *)
Lemma frame_spec_witness :
  frame {| _start_time := fzero; _frame_count := 9; _fps := Int 0 |}
        (literal 20 10)
  = ({| _start_time := literal 20 10; _frame_count := 0;
        _fps := Float (literal 50 10) |}, Ok tt)
  /\ frame (__init__ fzero) (literal 5 10)
     = ({| _start_time := fzero; _frame_count := 1; _fps := Int 0 |}, Ok tt).
Proof.
  destruct (frame_spec
              {| _start_time := fzero; _frame_count := 9; _fps := Int 0 |}
              (literal 20 10)) as (Hconv & Hclose & _).
  destruct (frame_spec (__init__ fzero) (literal 5 10)) as (_ & _ & Hopen).
  split.
  - apply (proj2 (Hclose (round_int 10) (Hconv ltac:(simpl; lia)) eq_refl)).
  - apply (Hopen eq_refl).
Defined.

(** C1 (as stated) fails on a counter whose count has reached
    [2^1024 - 1]: the window closes, the count converted for the
    division exceeds every finite float, the call raises
    [OverflowError], and the counter keeps its start time, its rate
    and the incremented count. *)
Lemma frame_spec_counterexample :
  let self := {| _start_time := fzero; _frame_count := 2 ^ 1024 - 1;
                 _fps := Int 0 |} in
  let now := literal 10 10 in
  fge (fsub now (_start_time self)) (literal 10 10) = true
  /\ frame self now =
       ({| _start_time := fzero; _frame_count := 2 ^ 1024; _fps := Int 0 |},
        Raise OverflowError).
Proof. vm_compute. split; reflexivity. Qed.

(** C2.  On every counter, [reset] at time [t] leaves exactly the
    counter that creation at time [t] produces: start time [t], count
    0, rate 0; the rate read right after is 0. *)
Theorem reset_is_init (self : FPSCounter) (t : float) :
  reset self t = __init__ t
  /\ reset self t = {| _start_time := t; _frame_count := 0; _fps := Int 0 |}
  /\ snd (fps (reset self t)) = Int 0
  /\ num_eq0 (snd (fps (reset self t))) = true.
Proof. repeat split. Qed.

(** C3.  After creation and after every call of any sequence of
    creations, recorded events, resets and rate reads, at arbitrary
    times, the count is non-negative and the rate is non-negative. *)
Theorem counter_inv_always (t0 : float) (ops : list call) :
  Forall counter_inv (history (__init__ t0) ops).
Proof.
  assert (H : forall ops c, counter_inv c -> Forall counter_inv (history c ops)).
  { clear. induction ops as [|op ops IH]; intros c Hc; simpl.
    - constructor; [assumption | constructor].
    - constructor; [assumption |].
      apply IH. apply step_preserves_inv. exact Hc. }
  apply H. apply init_inv.
Qed.

(** C4 (as amended).  The rate changes only when an event is recorded
    with an elapsed time of at least 1.0, or when the counter is
    initialised again, by [reset] or by creation, which sets it to 0.
    A recorded event that does not observe an elapsed time of at least
    1.0 (in particular one that observes less than 1.0) leaves the
    rate and the start time as they were and only adds one to the
    count.  Reading the rate returns the counter untouched, and
    reading it again returns the same value. *)
Theorem rate_changes_only_on_close_or_reset (self : FPSCounter) :
  (forall op,
      _fps (step self op) <> _fps self ->
      (exists now, op = RecordEvent now
                   /\ fge (fsub now (_start_time self)) (literal 10 10) = true)
      \/ (exists now, (op = Reset now \/ op = Create now)
                      /\ _fps (step self op) = Int 0))
  /\ (forall now,
        fge (fsub now (_start_time self)) (literal 10 10) = false ->
        frame self now = (with_count self (_frame_count self + 1), Ok tt))
  /\ (forall now,
        flt (fsub now (_start_time self)) (literal 10 10) = true ->
        _fps (fst (frame self now)) = _fps self
        /\ _start_time (fst (frame self now)) = _start_time self
        /\ _frame_count (fst (frame self now)) = _frame_count self + 1)
  /\ fst (fps self) = self
  /\ snd (fps (fst (fps self))) = snd (fps self).
Proof.
  split; [|split; [|split]].
  - intros op H. destruct op as [now|now|now|]; simpl in H.
    + right. exists now. split; [right; reflexivity | reflexivity].
    + left. exists now. split; [reflexivity|].
      destruct (fge (fsub now (_start_time self)) (literal 10 10)) eqn:Hge;
        [reflexivity|].
      exfalso. apply H. rewrite frame_open_window by exact Hge. reflexivity.
    + right. exists now. split; [left; reflexivity | reflexivity].
    + exfalso. apply H. reflexivity.
  - intros now. apply frame_open_window.
  - intros now H. rewrite frame_open_window by (apply flt_not_fge; exact H).
    repeat split.
  - split; reflexivity.
Qed.

(** An event recorded a quarter of a second into a window that
    already shows a rate of 5.0. *)
Lemma rate_changes_only_on_close_or_reset_witness :
  let self := {| _start_time := literal 30 10; _frame_count := 2;
                 _fps := Float (literal 50 10) |} in
  frame self (literal 325 100)
  = ({| _start_time := literal 30 10; _frame_count := 3;
        _fps := Float (literal 50 10) |}, Ok tt)
  /\ _fps (fst (frame self (literal 325 100))) = Float (literal 50 10).
Proof.
  intros self.
  pose proof (rate_changes_only_on_close_or_reset self) as (_ & H1 & H2 & _).
  split.
  - apply (H1 (literal 325 100) eq_refl).
  - apply (proj1 (H2 (literal 325 100) eq_refl)).
Defined.

(** C4 (as stated) fails on [reset]: a counter created at 0.0 with an
    event recorded every 0.2 up to 2.0 shows the rate 5.0; a reset at
    3.0 leaves the rate 0, and no event was recorded by it. *)
Lemma rate_changes_only_on_close_counterexample :
  let self :=
    record_events (__init__ fzero)
      (map (fun k => literal k 10) [2; 4; 6; 8; 10; 12; 14; 16; 18; 20]) in
  _fps self = Float (literal 50 10)
  /\ _fps (reset self (literal 30 10)) = Int 0
  /\ num_eq0 (_fps self) = false
  /\ _fps (reset self (literal 30 10)) <> _fps self.
Proof.
  vm_compute. repeat split; discriminate.
Qed.

Lemma rate_zero_while_open (t0 : float) (ops : list call) :
  forall c,
    _start_time c = t0 -> _fps c = Int 0 ->
    Forall (window_stays_open t0) ops ->
    Forall (fun c' => snd (fps c') = Int 0) (history c ops).
Proof.
  induction ops as [|op ops IH]; intros c Hs Hr Hops; simpl.
  - constructor; [exact Hr | constructor].
  - constructor; [exact Hr |].
    inversion Hops as [|op' ops' Hop Hrest]; subst.
    destruct op as [now|now|now|]; simpl in Hop; try contradiction.
    + simpl. rewrite frame_open_window by exact Hop.
      apply IH; auto.
    + simpl. apply IH; auto.
Qed.

(** C5.  A new counter has rate 0, and every rate read returns 0 as
    long as no recorded event observes an elapsed time of at least
    1.0: in any sequence of rate reads and of events recorded while
    [now - t0 >= 1.0] does not hold, every counter reached reads 0
    (so without recorded events the rate is 0 for ever).  In
    particular after creation at 0.0 and one event at 0.5 the rate
    read is 0. *)
Theorem rate_zero_until_close :
  (forall t0, _fps (__init__ t0) = Int 0)
  /\ (forall t0 ops,
        Forall (window_stays_open t0) ops ->
        Forall (fun c => snd (fps c) = Int 0) (history (__init__ t0) ops))
  /\ snd (fps (fst (frame (__init__ fzero) (literal 5 10)))) = Int 0.
Proof.
  split; [reflexivity | split].
  - intros t0 ops H. apply (rate_zero_while_open t0); auto.
  - vm_compute. reflexivity.
Qed.

(** Creation at 0.0, a read, an event at 0.5, a read, an event at 0.9. *)
Lemma rate_zero_until_close_witness :
  Forall (fun c => snd (fps c) = Int 0)
         (history (__init__ fzero)
                  [Rate; RecordEvent (literal 5 10); Rate;
                   RecordEvent (literal 9 10)]).
Proof.
  apply (proj1 (proj2 rate_zero_until_close)).
  repeat constructor.
Defined.

(** C6.  A counter created at 0.0 with one event recorded at each of
    0.1, 0.2, ..., 1.0: after the first nine the count is 9 and the
    rate still 0; the tenth observes an elapsed time of 1.0 and leaves
    rate 10.0 (the float of the integer ten), count 0 and start time
    1.0. *)
Theorem ten_ticks_scenario :
  nth 9 ticks fzero = literal 10 10
  /\ record_events (__init__ fzero) (firstn 9 ticks)
     = {| _start_time := fzero; _frame_count := 9; _fps := Int 0 |}
  /\ fsub (literal 10 10) fzero = literal 10 10
  /\ frame {| _start_time := fzero; _frame_count := 9; _fps := Int 0 |}
           (literal 10 10)
     = ({| _start_time := literal 10 10; _frame_count := 0;
           _fps := Float (literal 100 10) |}, Ok tt)
  /\ record_events (__init__ fzero) ticks
     = {| _start_time := literal 10 10; _frame_count := 0;
          _fps := Float (literal 100 10) |}
  /\ literal 100 10 = round_int 10.
Proof. vm_compute. repeat split. Qed.

(** A clock that starts at 0.0 and is advanced by adding 0.1 ten times
    reads 0.9999999999999999, not the tick 1.0 of the scenario: an
    event recorded then leaves the window open. *)
Remark accumulated_clock_falls_short :
  let t := fold_left (fun t _ => fadd t (literal 1 10)) (repeat tt 10) fzero in
  t = S754_finite false 9007199254740991 (-53)
  /\ flt t (literal 10 10) = true
  /\ frame {| _start_time := fzero; _frame_count := 9; _fps := Int 0 |} t
     = ({| _start_time := fzero; _frame_count := 10; _fps := Int 0 |}, Ok tt).
Proof. vm_compute. repeat split. Qed.

(** ** wait_for_file *)

Section WaitForFile.

Variable os : OS.
Variable file : string.
Variable timeout : num.
Variable start_time : float.


Lemma keeps_waiting_unshift (w : World os) (k : nat) :
  poll_found os file w 0 = false ->
  poll_timed_out os file timeout start_time w 0 = false ->
  keeps_waiting os file timeout start_time (after_poll os file w) k ->
  keeps_waiting os file timeout start_time w (S k).
Proof.
  intros Hf Ht H [|j] Hj; [auto|]. apply (H j). lia.
Qed.

Lemma wait_loop_step (fuel : nat) (w : World os) :
  wait_loop os (S fuel) file timeout start_time w =
    if poll_found os file w 0 then
      Some (true, snd (os_exists os file w), [EvExists file true])
    else
      let now := fst (os_time os (snd (os_exists os file w))) in
      if poll_timed_out os file timeout start_time w 0 then
        Some (false, snd (os_time os (snd (os_exists os file w))),
              [EvExists file false; EvTime now])
      else
        match wait_loop os fuel file timeout start_time
                (after_poll os file w) with
        | Some (r, w', evs) =>
            Some (r, w', EvExists file false :: EvTime now
                           :: EvSleep half_second :: evs)
        | None => None
        end.
Proof.
  unfold poll_found, poll_timed_out, after_poll. simpl.
  destruct (os_exists os file w) as [b w1]. simpl.
  destruct b; [reflexivity|].
  destruct (os_time os w1) as [now w2]. reflexivity.
Qed.


Lemma wait_loop_sound (fuel : nat) :
  forall (w : World os) (r : bool) (w' : World os) (evs : list event),
    wait_loop os fuel file timeout start_time w = Some (r, w', evs) ->
    exists k, (k < fuel)%nat
            /\ keeps_waiting os file timeout start_time w k
              /\ poll_found os file w k = r
              /\ (r = false ->
                  poll_timed_out os file timeout start_time w k = true)
              /\ sleeps evs = repeat half_second k
              /\ checks evs = repeat false k ++ [r].
Proof.
  induction fuel as [|fuel IH]; intros w r w' evs; [discriminate|].
  rewrite wait_loop_step.
  destruct (poll_found os file w 0) eqn:Hf.
  - intros H; inversion H; subst. exists 0%nat.
    split; [lia|]. split; [intros j Hj; lia|].
    repeat split; auto; discriminate.
  - destruct (poll_timed_out os file timeout start_time w 0) eqn:Ht.
    + intros H; inversion H; subst. exists 0%nat.
      split; [lia|]. split; [intros j Hj; lia|].
      repeat split; auto.
    + destruct (wait_loop os fuel file timeout start_time
                  (after_poll os file w)) as [[[r0 w0] evs0]|] eqn:Hrec;
        [|discriminate].
      intros H; inversion H; subst.
      destruct (IH _ _ _ _ Hrec) as (k & Hlt & Hk & Hr & Hto & Hs & Hc).
      exists (S k). split; [lia|].
      split; [apply keeps_waiting_unshift; assumption|].
      repeat split; auto.
      * simpl. rewrite Hs. reflexivity.
      * simpl. rewrite Hc. reflexivity.
Qed.

End WaitForFile.

Lemma wait_for_file_unfold (os : OS) (fuel : nat) (file : string)
    (timeout : num) (w : World os) :
  wait_for_file os fuel file timeout w =
    match wait_loop os fuel file timeout (fst (os_time os w))
            (snd (os_time os w)) with
    | Some (r, w', evs) => Some (r, w', EvTime (fst (os_time os w)) :: evs)
    | None => None
    end.
Proof. unfold wait_for_file. destruct (os_time os w). reflexivity. Qed.



(** C8 at the failing input.  On a system where every call takes a
    millisecond, a call at 100.0 with a timeout of 1 for a file that
    comes into existence at 101.003: the checks made 0.001 and 0.504
    after the start find nothing and the readings that follow them do
    not exceed the timeout; the third check, made 1.007 after the
    start, finds the file and the call returns [True], for a file
    that did not exist within the timeout. *)
Theorem wait_for_file_overshoot :
  let os := lag_os (literal 1 1000) in
  let w := {| sim_now := literal 1000 10; sim_created := literal 101003 1000 |} in
  let w0 := snd (os_time os w) in
  created_within_timeout w (Int 1) = false
  /\ map (fun k => (poll_found os "mitm.pem" w0 k,
                    fgt_num (fsub (sim_now (poll_world os "mitm.pem" k w0))
                                  (sim_now w)) (Int 1)))
         [0%nat; 1%nat; 2%nat]
     = [(false, false); (false, false); (true, true)]
  /\ exists w' evs,
       wait_for_file os 10 "mitm.pem" (Int 1) w = Some (true, w', evs)
       /\ checks evs = [false; false; true]
       /\ sleeps evs = [half_second; half_second].
Proof.
  vm_compute. split; [reflexivity | split; [reflexivity|]].
  do 2 eexists. repeat split.
Qed.

(** C10.  When the existence check made on entry answers yes, the
    call returns [True] after reading the clock once for its start
    time and checking the path once: no sleep, no second clock
    reading, whatever the timeout. *)
Theorem wait_for_file_existing (os : OS) (file : string) (timeout : num)
    (w : World os) (fuel : nat) :
  fst (os_exists os file (snd (os_time os w))) = true ->
  wait_for_file os (S fuel) file timeout w
  = Some (true, snd (os_exists os file (snd (os_time os w))),
          [EvTime (fst (os_time os w)); EvExists file true]).
Proof.
  intros H. rewrite wait_for_file_unfold, wait_loop_step.
  unfold poll_found. simpl. rewrite H. reflexivity.
Qed.

(** A file created at 0.0, a call at 1.0 with a timeout of -3. *)
Lemma wait_for_file_existing_witness :
  wait_for_file sim_os 1 "mitm.pem" (Int (-3))
    {| sim_now := literal 10 10; sim_created := fzero |}
  = Some (true, {| sim_now := literal 10 10; sim_created := fzero |},
          [EvTime (literal 10 10); EvExists "mitm.pem" true]).
Proof.
  apply (wait_for_file_existing sim_os "mitm.pem" (Int (-3))
           {| sim_now := literal 10 10; sim_created := fzero |} 0).
  vm_compute. reflexivity.
Defined.

(** ** install_root_cert *)

Lemma install_root_cert_win32 (exec : list string -> run_outcome)
    (cert_file : string) :
  install_root_cert "win32" exec cert_file =
    match exec ["certutil"; "-addstore"; "Root"; cert_file] with
    | Exited rc out => Ok (rc =? 0, out)
    | Failed e => Raise e
    end.
Proof.
  unfold install_root_cert, subprocess_run. simpl String.eqb. cbv iota.
  destruct (exec _) as [rc out|e]; simpl; [|reflexivity].
  destruct (rc =? 0); reflexivity.
Qed.


Lemma install_root_cert_darwin (exec : list string -> run_outcome)
    (cert_file : string) :
  install_root_cert "darwin" exec cert_file =
    match exec ["sudo"; "security"; "add-trusted-cert"; "-d"; "-r"; "trustRoot";
                "-k"; "/Library/Keychains/System.keychain"; cert_file] with
    | Exited rc out =>
        if rc =? 0 then Ok (true, out) else Raise (CalledProcessError rc)
    | Failed e => Raise e
    end.
Proof.
  unfold install_root_cert, subprocess_run. simpl String.eqb. cbv iota.
  destruct (exec _) as [rc out|e]; simpl; [|reflexivity].
  destruct (rc =? 0) eqn:E; simpl; [rewrite E|]; reflexivity.
Qed.

(** C7 at the failing input.  A command that ends with return code 1
    and some captured output: on win32 the call returns failure with
    that output, on darwin it raises [CalledProcessError] and returns
    nothing. *)
Theorem install_root_cert_darwin_raises :
  let exec :=
    fun _ : list string => Exited 1 "SecCertificateCreateFromData: error" in
  install_root_cert "win32" exec "mitm.pem"
  = Ok (false, "SecCertificateCreateFromData: error")
  /\ install_root_cert "darwin" exec "mitm.pem"
     = Raise (CalledProcessError 1).
Proof. vm_compute. split; reflexivity. Qed.

(** ** random_str *)

Lemma population_alnum :
  forallb one_char_alnum (str_items (String.append ascii_letters digits)) = true.
Proof. vm_compute. reflexivity. Qed.

Lemma population_size :
  List.length (str_items (String.append ascii_letters digits)) = 62%nat.
Proof. vm_compute. reflexivity. Qed.

Lemma draw_from_in_range {A : Type} (randbelow : nat -> nat -> nat)
    (population : list A) :
  (forall j, (randbelow j (List.length population) < List.length population)%nat) ->
  forall k j, exists items,
    draw_from randbelow population j k = Ok items
    /\ List.length items = k
    /\ Forall (fun x => In x population) items.
Proof.
  intros Hrange. induction k as [|k IH]; intros j; simpl.
  - exists []. repeat split. constructor.
  - destruct (nth_error population (randbelow j (List.length population)))
      as [x|] eqn:Hx.
    + destruct (IH (S j)) as (items & -> & Hlen & Hin). simpl.
      exists (x :: items). repeat split.
      * simpl. congruence.
      * constructor; [eapply nth_error_In; exact Hx | exact Hin].
    + exfalso. apply nth_error_None in Hx. specialize (Hrange j). lia.
Qed.

Lemma join_one_char (items : list string) :
  Forall (fun x => one_char_alnum x = true) items ->
  String.length (join items) = List.length items
  /\ Forall (fun c => is_letter_or_digit c = true)
            (list_ascii_of_string (join items)).
Proof.
  unfold join. induction items as [|x items IH]; intros H.
  - simpl. split; [reflexivity | constructor].
  - inversion H as [|x' items' Hx Hrest]; subst.
    destruct (IH Hrest) as [IHlen IHall].
    destruct x as [|c [|c' x]]; simpl in Hx; try discriminate.
    destruct items as [|y items].
    + simpl. split; [reflexivity | repeat constructor; exact Hx].
    + change (String.concat EmptyString (String c EmptyString :: y :: items))
        with (String c (String.concat EmptyString (y :: items))).
      split.
      * cbn [String.length List.length] in *. rewrite IHlen. reflexivity.
      * cbn [list_ascii_of_string]. constructor; assumption.
Qed.

Lemma choices_in_range {A : Type} (randbelow : nat -> nat -> nat)
    (population : list A) (k : Z) :
  - 2 ^ 63 <= k < 2 ^ 63 ->
  choices randbelow population k
  = draw_from randbelow population 0 (Z.to_nat k).
Proof.
  intros [Hlo Hhi]. unfold choices.
  apply Z.ltb_ge in Hlo. apply Z.leb_gt in Hhi. rewrite Hlo, Hhi.
  reflexivity.
Qed.

(** C9 (as amended).  With a generator whose draws index the
    population, for every length [n] below [2^63] the call returns a
    string of exactly [n] characters, each an ASCII letter or a
    decimal digit. *)
Theorem random_str_spec (randbelow : nat -> nat -> nat)
    (Hrange : forall j n, (0 < n)%nat -> (randbelow j n < n)%nat) (n : nat)
    (Hn : Z.of_nat n < 2 ^ 63) :
  exists s,
    random_str randbelow (Z.of_nat n) = Ok s
    /\ String.length s = n
    /\ Forall (fun c => is_letter_or_digit c = true) (list_ascii_of_string s).
Proof.
  unfold random_str. rewrite choices_in_range by lia. rewrite Nat2Z.id.
  destruct (draw_from_in_range randbelow
              (str_items (String.append ascii_letters digits))
              ltac:(intros j; apply Hrange; rewrite population_size; lia)
              n 0%nat) as (items & -> & Hlen & Hin).
  simpl bind. exists (join items).
  assert (Hall : Forall (fun x => one_char_alnum x = true) items).
  { pose proof population_alnum as Hpop. rewrite forallb_forall in Hpop.
    rewrite Forall_forall in *. intros x Hx. apply Hpop. apply Hin. exact Hx. }
  destruct (join_one_char items Hall) as [H1 H2].
  split; [reflexivity|]. split; [congruence | exact H2].
Qed.

(** Twelve characters drawn with a generator that walks the population
    in steps of seven. *)
Lemma random_str_spec_witness :
  exists s,
    random_str (fun j n => (j * 7) mod n)%nat 12 = Ok s
    /\ String.length s = 12%nat
    /\ Forall (fun c => is_letter_or_digit c = true) (list_ascii_of_string s).
Proof.
  apply (random_str_spec (fun j n => (j * 7) mod n)%nat
           (fun j n H => Nat.mod_upper_bound (j * 7) n (Nat.neq_sym _ _ (Nat.lt_neq _ _ H)))
           12%nat).
  reflexivity.
Defined.

(** C9 (as stated) fails at the length [2^63]: the number of draws
    does not fit the counter of the machine and the call raises
    [OverflowError] instead of returning a string. *)
Lemma random_str_counterexample :
  random_str (fun j n => (j * 7) mod n)%nat (2 ^ 63) = Raise OverflowError.
Proof. vm_compute. reflexivity. Qed.

(** ** The file system *)

Lemma entry_set_entry (name n : string) (x : node) (es : list (string * node)) :
  entry n (set_entry name x es) =
    if String.eqb name n
    then match entry name es with Some _ => Some x | None => None end
    else entry n es.
Proof.
  induction es as [|[m y] es IH]; simpl.
  - destruct (String.eqb name n); reflexivity.
  - destruct (String.eqb m name) eqn:Emn; simpl.
    + apply String.eqb_eq in Emn. subst m.
      destruct (String.eqb name n); reflexivity.
    + destruct (String.eqb m n) eqn:Em.
      * apply String.eqb_eq in Em. subst m.
        rewrite String.eqb_sym, Emn. reflexivity.
      * exact IH.
Qed.

Lemma entry_app_new (name n : string) (x : node) (es : list (string * node)) :
  entry name es = None ->
  entry n (es ++ [(name, x)]) =
    if String.eqb name n then Some x else entry n es.
Proof.
  induction es as [|[m y] es IH]; simpl; intros H.
  - reflexivity.
  - destruct (String.eqb m name) eqn:Emn; [discriminate|].
    destruct (String.eqb m n) eqn:Em.
    + apply String.eqb_eq in Em. subst m. rewrite String.eqb_sym, Emn.
      reflexivity.
    + apply IH. exact H.
Qed.

Lemma entry_in (name : string) (x : node) (es : list (string * node)) :
  entry name es = Some x -> In name (map fst es).
Proof.
  induction es as [|[m y] es IH]; simpl; [discriminate|].
  destruct (String.eqb m name) eqn:E.
  - apply String.eqb_eq in E. auto.
  - auto.
Qed.


Lemma stat_cons (es : list (string * node)) (n : string) (q : path) :
  stat (DirNode es) (n :: q) =
    match entry n es with
    | Some child => stat child q
    | None => None
    end.
Proof. unfold stat. simpl. destruct (entry n es); reflexivity. Qed.

Lemma stat_below_file (q : path) : q <> [] -> stat FileNode q = None.
Proof. destruct q; [congruence | reflexivity]. Qed.

(** A successful [os.mkdir] adds one empty directory and changes the
    kind of nothing else. *)
Lemma os_mkdir_stat (p : path) :
  forall t t',
    os_mkdir t p = Done t' ->
    lookup t' p = Some (DirNode [])
    /\ stat t p = None
    /\ forall q, q <> p -> stat t' q = stat t q.
Proof.
  induction p as [|name rest IH]; intros t t' H; [discriminate|].
  simpl in H. destruct t as [|es]; [discriminate|].
  destruct (entry name es) as [child|] eqn:E.
  - destruct (os_mkdir child rest) as [child'|e] eqn:M; [|discriminate].
    inversion H; subst t'; clear H.
    destruct (IH child child' M) as (Hnew & Hold & Hframe).
    split; [|split].
    + simpl. rewrite entry_set_entry, String.eqb_refl, E. exact Hnew.
    + rewrite stat_cons, E. exact Hold.
    + intros [|n q] Hq; [reflexivity|].
      rewrite !stat_cons, entry_set_entry.
      destruct (String.eqb name n) eqn:En.
      * apply String.eqb_eq in En. subst n. rewrite E.
        apply Hframe. congruence.
      * reflexivity.
  - destruct rest as [|r rest]; [|discriminate].
    inversion H; subst t'; clear H. split; [|split].
    + simpl. rewrite (entry_app_new name name _ es E), String.eqb_refl.
      reflexivity.
    + rewrite stat_cons, E. reflexivity.
    + intros [|n q] Hq; [reflexivity|].
      rewrite !stat_cons, (entry_app_new name n _ es E).
      destruct (String.eqb name n) eqn:En; [|reflexivity].
      apply String.eqb_eq in En. subst n. rewrite E.
      destruct q as [|m q]; [congruence | reflexivity].
Qed.



(** ** sub_folder, sub_file, list_files *)

Lemma sub_folder_unfold (meipass : option pure_path) (cwd : path) (fs : node)
    (folder_name : pure_path) :
  sub_folder meipass cwd fs folder_name =
    let target := sub_folder_target meipass cwd folder_name in
    if negb (path_exists fs target) then
      match path_mkdir fs target true with
      | Done fs' => (fs', Done target)
      | OSError e => (fs, OSError e)
      end
    else (fs, Done target).
Proof. reflexivity. Qed.











Lemma sub_folder_cases (meipass : option pure_path) (cwd : path) (fs : node)
    (folder_name : pure_path) :
  fst (sub_folder meipass cwd fs folder_name) = fs
  \/ os_mkdir fs (sub_folder_target meipass cwd folder_name)
     = Done (fst (sub_folder meipass cwd fs folder_name)).
Proof.
  rewrite sub_folder_unfold.
  set (target := sub_folder_target meipass cwd folder_name).
  unfold path_mkdir.
  destruct (negb (path_exists fs target)); [|left; reflexivity].
  destruct (os_mkdir fs target) as [fs1|e]; [right; reflexivity|].
  left. destruct e; simpl; try reflexivity;
    destruct (is_dir fs target); reflexivity.
Qed.

Lemma lookup_app (p : path) (n : string) :
  forall t,
    lookup t (p ++ [n]) =
      match lookup t p with
      | Some (DirNode es) => entry n es
      | _ => None
      end.
Proof.
  induction p as [|m p IH]; intros t; simpl.
  - destruct t as [|es]; [reflexivity|].
    destruct (entry n es); reflexivity.
  - destruct t as [|es]; [reflexivity|].
    destruct (entry m es) as [child|]; [apply IH | reflexivity].
Qed.

Lemma list_files_In (cwd : path) (fs : node) (folder : pure_path) (n : string) :
  In n (list_files cwd fs folder false)
  <-> stat fs (absolute cwd folder ++ [n]) = Some IsFile.
Proof.
  unfold list_files, stat. rewrite lookup_app.
  destruct (lookup fs (absolute cwd folder)) as [[|es]|] eqn:L.
  - simpl. split; [contradiction | discriminate].
  - rewrite filter_In. unfold is_file, stat. rewrite lookup_app, L.
    destruct (entry n es) as [[|es']|] eqn:E.
    + split; [reflexivity|]. intros _. split; [|reflexivity].
      eapply entry_in. exact E.
    + split; [intros [_ H]; discriminate | discriminate].
    + split; [intros [_ H]; discriminate | discriminate].
  - simpl. split; [contradiction | discriminate].
Qed.





(** X8.  For a target and folders made of plain names, [sub_folder]
    changes what [list_files] reports in no folder: whatever the
    outcome, every folder lists the same file names after the call as
    before; and when nothing existed at the target, the target lists
    nothing afterwards, created or not. *)
Theorem sub_folder_keeps_listings (meipass : option pure_path) (cwd : path)
    (fs : node) (folder_name : pure_path) :
  let target := sub_folder_target meipass cwd folder_name in
  let fs' := fst (sub_folder meipass cwd fs folder_name) in
  plain target = true ->
  (forall folder n,
      plain (absolute cwd folder) = true ->
      (In n (list_files cwd fs' folder false)
       <-> In n (list_files cwd fs folder false)))
  /\ (stat fs target = None ->
      forall full_path, list_files cwd fs' (Abs target) full_path = []).
Proof.
  intros target fs' _. subst fs'.
  pose proof (sub_folder_cases meipass cwd fs folder_name) as Hc.
  fold target in Hc. split.
  - intros folder n _. rewrite !list_files_In.
    destruct Hc as [-> | Hmk]; [reflexivity|].
    destruct (os_mkdir_stat _ _ _ Hmk) as (H1 & H2 & H3).
    destruct (list_eq_dec string_dec (absolute cwd folder ++ [n]) target)
      as [E | E].
    + rewrite E. unfold stat at 1. rewrite H1, H2. split; discriminate.
    + rewrite (H3 _ E). reflexivity.
  - intros Hnew full_path. unfold list_files. simpl absolute.
    destruct Hc as [-> | Hmk].
    + unfold stat in Hnew. destruct (lookup fs target) as [[|es]|];
        try discriminate; reflexivity.
    + destruct (os_mkdir_stat _ _ _ Hmk) as (H1 & _ & _).
      rewrite H1. destruct full_path; reflexivity.
Qed.

(** The models folder is made beside an existing log folder. *)
Lemma sub_folder_keeps_listings_witness :
  list_files ["home"]
    (fst (sub_folder None ["home"]
            (DirNode [("home", DirNode [("log", DirNode [("a.log", FileNode)])])])
            (Rel ["models"])))
    (Abs ["home"; "models"]) false
  = [].
Proof.
  apply (proj2 (sub_folder_keeps_listings None ["home"]
                  (DirNode [("home", DirNode [("log", DirNode [("a.log", FileNode)])])])
                  (Rel ["models"]) eq_refl)).
  reflexivity.
Defined.

(** ** set_dpi_awareness *)

(** X9.  Off win32 no call is attempted.  On win32 the first call
    attempted is [SetProcessDpiAwareness(1)]; [SetProcessDPIAware] is
    attempted exactly when the first raised [AttributeError]; any other
    failure of the first call is dropped; and an exception escapes
    exactly when the second call was attempted and raised. *)
Theorem set_dpi_awareness_spec (platform : string) (shcore user32 : api_outcome) :
  let calls := fst (set_dpi_awareness platform shcore user32) in
  let escaped := snd (set_dpi_awareness platform shcore user32) in
  (platform <> "win32" -> calls = [] /\ escaped = None)
  /\ (platform = "win32" -> hd_error calls = Some (SetProcessDpiAwareness 1))
  /\ (In SetProcessDPIAware calls
      <-> platform = "win32" /\ shcore = RaisesAttributeError)
  /\ (escaped <> None
      <-> platform = "win32" /\ shcore = RaisesAttributeError
          /\ user32 <> Returns)
  /\ (forall exc, escaped = Some exc -> exc = user32).
Proof.
  intros calls escaped. subst calls escaped. unfold set_dpi_awareness.
  destruct (String.eqb platform "win32") eqn:E.
  - apply String.eqb_eq in E. subst platform.
    destruct shcore, user32; simpl; intuition (congruence || discriminate).
  - apply String.eqb_neq in E. simpl. intuition (congruence || discriminate).
Qed.

Lemma set_dpi_awareness_spec_witness :
  fst (set_dpi_awareness "linux" RaisesOther RaisesOther) = []
  /\ snd (set_dpi_awareness "linux" RaisesOther RaisesOther) = None.
Proof.
  apply (proj1 (set_dpi_awareness_spec "linux" RaisesOther RaisesOther)).
  discriminate.
Defined.

(** ** error_to_str *)

Lemma append_inj_l (s a b : string) :
  String.append s a = String.append s b -> a = b.
Proof.
  induction s as [|c s IH]; simpl; intros H; [exact H|].
  inversion H. auto.
Qed.

(** X10.  The message for an unsupported mode is the language's text
    followed by a space and the value of the mode, so in one language
    two such errors read the same only for the same mode; a connection
    error and a read timeout with the same text read the same; and an
    error of no known class reads as its own text in every language. *)
Theorem error_to_str_spec (lan : LanStr) :
  (forall m1 m2,
      error_to_str (BotNotSupportingMode m1) lan
      = error_to_str (BotNotSupportingMode m2) lan -> m1 = m2)
  /\ (forall text,
        error_to_str (ReadTimeout text) lan
        = error_to_str (ConnectionError text) lan)
  /\ (forall t1 t2,
        error_to_str (ConnectionError t1) lan
        = error_to_str (ConnectionError t2) lan -> t1 = t2)
  /\ (forall text lan', error_to_str (OtherException text) lan' = text).
Proof.
  split; [|split; [|split]].
  - intros m1 m2 H. simpl in H. apply append_inj_l in H.
    destruct m1, m2; try reflexivity; discriminate.
  - reflexivity.
  - intros t1 t2 H. simpl in H. apply append_inj_l in H.
    apply (append_inj_l ": ") in H. exact H.
  - reflexivity.
Qed.

(** A read timeout reads as a connection error. *)
Lemma error_to_str_spec_witness :
  error_to_str (ReadTimeout "timed out")
    {| MODEL_FILE_ERROR := "Model file error";
       MITM_SERVER_ERROR := "MITM server error";
       MODEL_NOT_SUPPORT_MODE_ERROR := "Model does not support mode";
       CONNECTION_ERROR := "Connection error" |}
  = error_to_str (ConnectionError "timed out")
      {| MODEL_FILE_ERROR := "Model file error";
         MITM_SERVER_ERROR := "MITM server error";
         MODEL_NOT_SUPPORT_MODE_ERROR := "Model does not support mode";
         CONNECTION_ERROR := "Connection error" |}.
Proof.
  apply (proj1 (proj2 (error_to_str_spec
                  {| MODEL_FILE_ERROR := "Model file error";
                     MITM_SERVER_ERROR := "MITM server error";
                     MODEL_NOT_SUPPORT_MODE_ERROR := "Model does not support mode";
                     CONNECTION_ERROR := "Connection error" |}))).
Defined.

(** ** More on FPSCounter *)

Lemma float_of_int_raises (n : Z) (e : exn) :
  float_of_int n = Raise e -> e = OverflowError /\ 2 ^ 1023 <= Z.abs n.
Proof.
  intros H. split.
  - unfold float_of_int in H. destruct (round_int n); inversion H; reflexivity.
  - destruct (Z_lt_le_dec (Z.abs n) (2 ^ 1023)) as [Hlt|Hge]; [|exact Hge].
    rewrite (float_of_int_in_range n Hlt) in H. discriminate.
Qed.

(** X11.  [frame] never raises [ZeroDivisionError]: a call either
    returns normally or raises [OverflowError].  It can raise only
    when the window closes on an incremented count of at least
    [2^1023] in absolute value, and a call that raises leaves the
    incremented count with the old start time and rate. *)
Theorem frame_raises_only_overflow (self : FPSCounter) (now : float) :
  snd (frame self now) = Ok tt
  \/ (snd (frame self now) = Raise OverflowError
      /\ fge (fsub now (_start_time self)) (literal 10 10) = true
      /\ 2 ^ 1023 <= Z.abs (_frame_count self + 1)
      /\ fst (frame self now) = with_count self (_frame_count self + 1)).
Proof.
  destruct (fge (fsub now (_start_time self)) (literal 10 10)) eqn:Hge.
  - destruct (float_of_int (_frame_count self + 1)) as [a|e] eqn:Ha.
    + left. rewrite (frame_close_window self now a Hge Ha). reflexivity.
    + right. destruct (float_of_int_raises _ _ Ha) as [-> Hbig].
      rewrite (frame_overflow self now Hge Ha). auto.
  - left. rewrite (frame_open_window self now Hge). reflexivity.
Qed.

Lemma frame_count_cases (c : FPSCounter) (now : float) :
  _frame_count (fst (frame c now)) = _frame_count c + 1
  \/ _frame_count (fst (frame c now)) = 0.
Proof.
  unfold frame. simpl.
  destruct (fge (fsub now (_start_time c)) (literal 10 10)); [|auto].
  destruct (int_truediv_float (_frame_count c + 1) _); auto.
Qed.

Lemma count_events_cons (op : call) (ops : list call) :
  count_events (op :: ops) =
    match op with
    | RecordEvent _ => 1 + count_events ops
    | _ => count_events ops
    end.
Proof.
  unfold count_events. destruct op; simpl filter; try reflexivity.
  cbn [List.length]. lia.
Qed.

Lemma count_events_nonneg (ops : list call) : 0 <= count_events ops.
Proof. unfold count_events. lia. Qed.

Lemma run_count_bound (ops : list call) :
  forall c,
    0 <= _frame_count c ->
    0 <= _frame_count (run c ops) <= _frame_count c + count_events ops.
Proof.
  induction ops as [|op ops IH]; intros c Hc.
  - unfold run, count_events. simpl. lia.
  - change (run c (op :: ops)) with (run (step c op) ops).
    rewrite count_events_cons. pose proof (count_events_nonneg ops) as Hn.
    destruct op as [t|t|t|]; simpl step.
    + specialize (IH (__init__ t) ltac:(simpl; lia)). simpl in IH. lia.
    + destruct (frame_count_cases c t) as [E|E];
        specialize (IH (fst (frame c t)) ltac:(lia)); lia.
    + specialize (IH (reset c t) ltac:(simpl; lia)). simpl in IH. lia.
    + specialize (IH c Hc). lia.
Qed.

(** X12.  After any sequence of creations, recorded events, resets
    and rate reads, the count of a counter is at most the number of
    events recorded in the sequence. *)
Theorem count_at_most_events (t0 : float) (ops : list call) :
  0 <= _frame_count (run (__init__ t0) ops) <= count_events ops.
Proof.
  pose proof (run_count_bound ops (__init__ t0)) as H.
  simpl in H. apply H. lia.
Qed.

(** X13.  The rate set when a window closes is held through the next
    window: after a call that closes the window at [now] on a count
    that converts to [a], events recorded at times that are not yet
    1.0 past [now] leave the rate at [a] divided by the elapsed time
    and the start time at [now], and the count is their number. *)
Theorem rate_held_through_next_window (self : FPSCounter) (now a : float)
    (times : list float) :
  fge (fsub now (_start_time self)) (literal 10 10) = true ->
  float_of_int (_frame_count self + 1) = Ok a ->
  (forall t, In t times -> fge (fsub t now) (literal 10 10) = false) ->
  record_events self (now :: times)
  = {| _start_time := now;
       _frame_count := Z.of_nat (List.length times);
       _fps := Float (fdiv a (fsub now (_start_time self))) |}.
Proof.
  intros Hclose Ha Hopen.
  change (record_events self (now :: times))
    with (record_events (fst (frame self now)) times).
  rewrite (frame_close_window self now a Hclose Ha). simpl fst.
  rewrite record_events_open_window by exact Hopen.
  reflexivity.
Qed.

(** Ten events in two seconds, then three events in the next 0.9
    seconds: the rate stays at 5.0 and the count is 3. *)
Lemma rate_held_through_next_window_witness :
  record_events {| _start_time := fzero; _frame_count := 9; _fps := Int 0 |}
    [literal 20 10; literal 23 10; literal 26 10; literal 29 10]
  = {| _start_time := literal 20 10; _frame_count := 3;
       _fps := Float (literal 50 10) |}.
Proof.
  apply (rate_held_through_next_window
           {| _start_time := fzero; _frame_count := 9; _fps := Int 0 |}
           (literal 20 10) (round_int 10)
           [literal 23 10; literal 26 10; literal 29 10]).
  - reflexivity.
  - reflexivity.
  - intros t [<- | [<- | [<- | []]]]; reflexivity.
Defined.

(** ** More on wait_for_file *)

Lemma fgt_num_unbounded (x : float) (timeout : num) :
  timeout = Float S754_nan \/ timeout = Float (S754_infinity false) ->
  fgt_num x timeout = false.
Proof.
  intros [-> | ->]; destruct x as [s|s| |s m e]; try reflexivity;
    destruct s; reflexivity.
Qed.

(** X14.  With a timeout that is NaN or plus infinity the timeout
    test never succeeds: a call that returns returns [True], and when
    no poll ever finds the path the call does not return, whatever the
    fuel. *)
Theorem wait_for_file_unbounded_timeout (os : OS) (file : string)
    (timeout : num) (w : World os) :
  timeout = Float S754_nan \/ timeout = Float (S754_infinity false) ->
  (forall fuel r w' evs,
      wait_for_file os fuel file timeout w = Some (r, w', evs) -> r = true)
  /\ ((forall k, poll_found os file (snd (os_time os w)) k = false) ->
      forall fuel, wait_for_file os fuel file timeout w = None).
Proof.
  intros Ht.
  assert (Hsound : forall fuel r w' evs,
             wait_for_file os fuel file timeout w = Some (r, w', evs) ->
             exists k, poll_found os file (snd (os_time os w)) k = r
                       /\ r = true).
  { intros fuel r w' evs. rewrite wait_for_file_unfold.
    destruct (wait_loop os fuel file timeout (fst (os_time os w))
                (snd (os_time os w))) as [[[r0 w0] evs0]|] eqn:Hrun;
      [|discriminate].
    intros H; inversion H; subst.
    destruct (wait_loop_sound os file timeout _ fuel _ _ _ _ Hrun)
      as (k & _ & _ & Hr & Hto & _).
    exists k. split; [exact Hr|].
    destruct r; [reflexivity|].
    specialize (Hto eq_refl). unfold poll_timed_out in Hto.
    rewrite (fgt_num_unbounded _ timeout Ht) in Hto. discriminate. }
  split.
  - intros fuel r w' evs H. destruct (Hsound fuel r w' evs H) as (_ & _ & E).
    exact E.
  - intros Hnever fuel.
    destruct (wait_for_file os fuel file timeout w) as [[[r w'] evs]|] eqn:H;
      [|reflexivity].
    destruct (Hsound fuel r w' evs H) as (k & Hr & ->).
    rewrite Hnever in Hr. discriminate.
Qed.

Lemma sim_never_created (file : string) (k : nat) :
  forall w, sim_created w = S754_nan -> poll_found sim_os file w k = false.
Proof.
  induction k as [|k IH]; intros w Hw.
  - unfold poll_found. simpl. rewrite Hw. reflexivity.
  - unfold poll_found in *. simpl poll_world. apply IH. exact Hw.
Qed.

(** In the simulated world a file that never appears is waited for
    without limit. *)
Lemma wait_for_file_unbounded_timeout_witness :
  wait_for_file sim_os 1000 "mitm.pem" (Float S754_nan)
    {| sim_now := fzero; sim_created := S754_nan |}
  = None.
Proof.
  apply (proj2 (wait_for_file_unbounded_timeout sim_os "mitm.pem"
                  (Float S754_nan)
                  {| sim_now := fzero; sim_created := S754_nan |}
                  (or_introl eq_refl))).
  intros k. apply sim_never_created. reflexivity.
Defined.

(** ** More on install_root_cert *)

(** X15.  On win32 the outcome of certutil decides the call: when
    certutil ends, with whatever return code, the call returns its
    captured output with a flag that is true exactly when the return
    code is 0, and never raises [CalledProcessError]; the call raises
    only when no result of certutil is captured, and then what
    [subprocess.run] raised. *)
Theorem install_root_cert_win32_outcome (exec : list string -> run_outcome)
    (cert_file : string) :
  let cmd := ["certutil"; "-addstore"; "Root"; cert_file] in
  (forall rc out,
      exec cmd = Exited rc out ->
      exists ok,
        install_root_cert "win32" exec cert_file = Ok (ok, out)
        /\ (ok = true <-> rc = 0))
  /\ (forall e,
        install_root_cert "win32" exec cert_file = Raise e ->
        exec cmd = Failed e)
  /\ (forall e,
        exec cmd = Failed e ->
        install_root_cert "win32" exec cert_file = Raise e).
Proof.
  intros cmd. rewrite install_root_cert_win32. fold cmd.
  destruct (exec cmd) as [rc out|e]; split; [|split| |split].
  - intros rc' out' H. inversion H; subst. exists (rc' =? 0).
    split; [reflexivity | apply Z.eqb_eq].
  - discriminate.
  - discriminate.
  - discriminate.
  - intros e' H. inversion H. reflexivity.
  - intros e' H. inversion H. reflexivity.
Qed.

(** certutil reports a failure; certutil is missing. *)
Lemma install_root_cert_win32_outcome_witness :
  (exists ok,
     install_root_cert "win32" (fun _ => Exited 5 "CertUtil: -addstore command FAILED")
       "mitm.pem"
     = Ok (ok, "CertUtil: -addstore command FAILED")
     /\ (ok = true <-> 5 = 0))
  /\ install_root_cert "win32" (fun _ => Failed (Exception "FileNotFoundError"))
       "mitm.pem"
     = Raise (Exception "FileNotFoundError").
Proof.
  split.
  - apply (proj1 (install_root_cert_win32_outcome
                    (fun _ => Exited 5 "CertUtil: -addstore command FAILED")
                    "mitm.pem") 5 "CertUtil: -addstore command FAILED").
    reflexivity.
  - apply (proj2 (proj2 (install_root_cert_win32_outcome
                    (fun _ => Failed (Exception "FileNotFoundError"))
                    "mitm.pem"))).
    reflexivity.
Defined.

(** X16.  On darwin the call never returns a failure: a pair it
    returns has the flag true and the command ended with return code
    0, and a non-zero return code makes it raise [CalledProcessError]
    with that code. *)
Theorem install_root_cert_darwin_no_failure_pair
    (exec : list string -> run_outcome) (cert_file : string) :
  let cmd := ["sudo"; "security"; "add-trusted-cert"; "-d"; "-r"; "trustRoot";
              "-k"; "/Library/Keychains/System.keychain"; cert_file] in
  (forall ok out,
      install_root_cert "darwin" exec cert_file = Ok (ok, out) ->
      ok = true /\ exec cmd = Exited 0 out)
  /\ (forall rc out,
        exec cmd = Exited rc out -> rc <> 0 ->
        install_root_cert "darwin" exec cert_file
        = Raise (CalledProcessError rc)).
Proof.
  intros cmd. rewrite install_root_cert_darwin. fold cmd.
  destruct (exec cmd) as [rc out|e].
  - destruct (rc =? 0) eqn:E.
    + apply Z.eqb_eq in E. subst rc. split.
      * intros ok out' H. inversion H. auto.
      * intros rc' out' H Hne. inversion H. congruence.
    + split; [discriminate|].
      intros rc' out' H _. inversion H. reflexivity.
  - split; discriminate.
Qed.

Lemma install_root_cert_darwin_no_failure_pair_witness :
  install_root_cert "darwin" (fun _ => Exited 2 "denied") "mitm.pem"
  = Raise (CalledProcessError 2).
Proof.
  apply (proj2 (install_root_cert_darwin_no_failure_pair
                  (fun _ => Exited 2 "denied") "mitm.pem") 2 "denied").
  - reflexivity.
  - discriminate.
Defined.



(** ** More on random_str *)

Lemma In_all_ascii (c : ascii) : In c all_ascii.
Proof.
  unfold all_ascii. rewrite <- (ascii_nat_embedding c).
  apply in_map. apply in_seq. pose proof (nat_ascii_bounded c). lia.
Qed.

Lemma population_members_check :
  forallb (fun c => Bool.eqb (existsb (String.eqb (String c EmptyString))
                                      population)
                             (is_letter_or_digit c))
          all_ascii = true.
Proof. vm_compute. reflexivity. Qed.

Lemma population_members (c : ascii) :
  In (String c EmptyString) population <-> is_letter_or_digit c = true.
Proof.
  pose proof population_members_check as H. rewrite forallb_forall in H.
  specialize (H c (In_all_ascii c)). apply Bool.eqb_prop in H. rewrite <- H.
  rewrite existsb_exists. split.
  - intros Hin. exists (String c EmptyString). split; [exact Hin|].
    apply String.eqb_refl.
  - intros (x & Hin & E). apply String.eqb_eq in E. subst x. exact Hin.
Qed.

Lemma population_nodup : NoDup population.
Proof.
  replace population with (nodup string_dec population)
    by (vm_compute; reflexivity).
  apply NoDup_nodup.
Qed.

(** X18.  The population holds each ASCII letter and each decimal
    digit exactly once and nothing else, so every such character is
    the result of [random_str(1)] for exactly one draw. *)
Theorem random_str_reaches_every_alnum (c : ascii) :
  is_letter_or_digit c = true ->
  exists i, (i < 62)%nat
            /\ random_str (fun _ _ => i) 1 = Ok (String c EmptyString)
            /\ forall j, (j < 62)%nat ->
                         random_str (fun _ _ => j) 1 = Ok (String c EmptyString) ->
                         j = i.
Proof.
  intros Hc. apply population_members in Hc.
  destruct (In_nth_error _ _ Hc) as (i & Hi).
  assert (Hlt : (i < 62)%nat).
  { rewrite <- population_size. apply nth_error_Some. fold population.
    congruence. }
  assert (Hrun : forall j x, nth_error population j = Some x ->
                             random_str (fun _ _ => j) 1 = Ok (join [x])).
  { intros j x Hj. unfold random_str. rewrite choices_in_range by lia.
    fold population. change (Z.to_nat 1) with 1%nat. simpl draw_from.
    rewrite Hj. reflexivity. }
  exists i. split; [exact Hlt|]. split.
  - rewrite (Hrun i _ Hi). reflexivity.
  - intros j Hj Hrj.
    assert (Hsome : nth_error population j <> None).
    { apply nth_error_Some. unfold population. rewrite population_size.
      exact Hj. }
    destruct (nth_error population j) as [x|] eqn:Hx; [|congruence].
    rewrite (Hrun j x Hx) in Hrj. inversion Hrj as [Hjoin].
    unfold join in Hjoin. simpl in Hjoin. subst x.
    pose proof population_nodup as Hnd.
    rewrite NoDup_nth_error in Hnd. apply Hnd.
    + apply nth_error_Some. congruence.
    + congruence.
Qed.

(** The letter q. *)
Lemma random_str_reaches_every_alnum_witness :
  exists i, (i < 62)%nat
            /\ random_str (fun _ _ => i) 1 = Ok "q"
            /\ forall j, (j < 62)%nat ->
                         random_str (fun _ _ => j) 1 = Ok "q" -> j = i.
Proof.
  apply (random_str_reaches_every_alnum "q"%char). reflexivity.
Defined.

(** X19.  Whatever the generator yields: for a length that is zero
    or negative, down to [-2^63], the call returns the empty string;
    for a length below [-2^63] or from [2^63] on it raises
    [OverflowError].  In both cases nothing is drawn. *)
Theorem random_str_empty (randbelow randbelow' : nat -> nat -> nat) (n : Z) :
  (- 2 ^ 63 <= n <= 0 -> random_str randbelow n = Ok EmptyString)
  /\ (n < - 2 ^ 63 \/ 2 ^ 63 <= n ->
      random_str randbelow n = Raise OverflowError)
  /\ (n <= 0 \/ 2 ^ 63 <= n ->
      random_str randbelow' n = random_str randbelow n).
Proof.
  assert (Hempty : forall rb, - 2 ^ 63 <= n <= 0 ->
                              random_str rb n = Ok EmptyString).
  { intros rb H. unfold random_str. rewrite choices_in_range by lia.
    replace (Z.to_nat n) with 0%nat by lia. reflexivity. }
  assert (Hover : forall rb, n < - 2 ^ 63 \/ 2 ^ 63 <= n ->
                             random_str rb n = Raise OverflowError).
  { intros rb H. unfold random_str, choices.
    destruct H as [H | H].
    - apply Z.ltb_lt in H. rewrite H. reflexivity.
    - apply Z.leb_le in H. rewrite H, orb_true_r. reflexivity. }
  split; [apply Hempty | split; [apply Hover|]].
  intros H. destruct (Z_lt_le_dec n (- 2 ^ 63)) as [Hlo | Hlo].
  - rewrite !Hover by lia. reflexivity.
  - destruct H as [H | H].
    + rewrite !Hempty by lia. reflexivity.
    + rewrite !Hover by lia. reflexivity.
Qed.

Lemma random_str_empty_witness :
  random_str (fun _ _ => 99%nat) (-3) = Ok EmptyString
  /\ random_str (fun _ _ => 99%nat) (- 2 ^ 63 - 1) = Raise OverflowError.
Proof.
  split.
  - apply (proj1 (random_str_empty (fun _ _ => 99%nat) (fun _ _ => 0%nat) (-3))).
    lia.
  - apply (proj1 (proj2 (random_str_empty (fun _ _ => 99%nat)
                           (fun _ _ => 0%nat) (- 2 ^ 63 - 1)))).
    lia.
Defined.
